(** * graphql_ws.protocol: message envelope decoding and validation

    A shallow embedding of [src/graphql_ws/protocol.py] together with the
    parts of the Python runtime it relies on: [json.loads] (CPython's
    scanner, [Modules/_json.c]), the value equality [==] of the objects it
    produces, and the [collections.abc.Mapping] mixin methods inherited by
    [OperationMessagePayload].  The GraphQL parser [graphql.parse] is an
    external collaborator and is kept abstract. *)

From Stdlib Require Import ZArith NArith List String Ascii Bool Lia.
From Stdlib Require Import Floats.SpecFloat Sorting.Permutation.
Import ListNotations.
Set Warnings "-register-all".

(* ------------------------------------------------------------------ *)
(** ** Python text and values *)

Module Py.

(** A Python [str]: a sequence of code points. *)
Definition pystr := list N.

(** A Rocq string literal read as a Python [str] (ASCII only). *)
Definition txt (s : string) : pystr := map N_of_ascii (list_ascii_of_string s).

(** The same, with every ['] read as a double quote, to write JSON texts. *)
Definition jtxt (s : string) : pystr :=
  map (fun c => if N.eqb c 39 then 34%N else c) (txt s).

(** Binary64, the format of a Python [float]. *)
Definition prec : Z := 53.
Definition emax : Z := 1024.

(** The objects [json.loads] builds: [None], [bool], [int], [float], [str],
    [list] and [dict] (an insertion-ordered association list, keys unique). *)
Inductive pyval : Type :=
| PNone
| PBool (b : bool)
| PInt (z : Z)
| PFloat (f : spec_float)
| PStr (s : pystr)
| PList (xs : list pyval)
| PDict (d : list (pystr * pyval)).

Definition pydict := list (pystr * pyval).

Fixpoint str_eqb (a b : pystr) : bool :=
  match a, b with
  | [], [] => true
  | x :: a', y :: b' => N.eqb x y && str_eqb a' b'
  | _, _ => false
  end.

(** [d[k]] on a [dict]: [None] models the [KeyError]. *)
Fixpoint dict_lookup (k : pystr) (d : pydict) : option pyval :=
  match d with
  | [] => None
  | (k', v) :: d' => if str_eqb k k' then Some v else dict_lookup k d'
  end.

(** [d[k] = v]: an existing key keeps its position, a new one goes last. *)
Fixpoint dict_setitem (k : pystr) (v : pyval) (d : pydict) : pydict :=
  match d with
  | [] => [(k, v)]
  | (k', v') :: d' =>
      if str_eqb k k' then (k', v) :: d' else (k', v') :: dict_setitem k v d'
  end.

(** [dict.get(k)]: [None] for a missing key. *)
Definition dict_get (d : pydict) (k : pystr) : pyval :=
  match dict_lookup k d with Some v => v | None => PNone end.

End Py.

(* ------------------------------------------------------------------ *)
(** ** [json.loads]

    CPython's default decoder: [json.loads] rejects a leading BOM, skips
    whitespace, runs the C scanner [scan_once] and rejects trailing data.
    Three exceptions come out of it: [JSONDecodeError] for a text it does
    not accept; [RecursionError] when an object or array is entered with
    no recursion budget left ([Py_EnterRecursiveCall] at each [{] and [[]);
    [ValueError] when an integer literal has more digits than
    [sys.get_int_max_str_digits()] ([int()] of the literal).  The budget
    depends on the interpreter's recursion limit and on the stack depth at
    the call, so it is a parameter, like the digit limit (0 for none).  The
    scanner is given a fuel of [3 * length + 3] calls, more than the
    nesting of any text. *)

Module Json.
Import Py.

Definition QUOTE : N := 34.
Definition BACKSLASH : N := 92.
Definition LBRACE : N := 123.
Definition RBRACE : N := 125.
Definition LBRACKET : N := 91.
Definition RBRACKET : N := 93.
Definition COMMA : N := 44.
Definition COLON : N := 58.
Definition MINUS : N := 45.
Definition PLUS : N := 43.
Definition DOT : N := 46.
Definition BOM : N := 65279.

(** The exceptions [json.loads] raises. *)
Inductive exn := JSONDecodeError | RecursionError | ValueError.

(** What a scanner step gives: a value and the rest of the text, or an
    exception; a [StopIteration] of the C scanner ends as [JSONDecodeError]
    wherever it is raised, so it is one here. *)
Inductive res := Found (v : pyval) (rest : pystr) | Raise (e : exn).

(** What [json.loads] gives. *)
Inductive decoded := Decoded (v : pyval) | Raised (e : exn).

(** [IS_WHITESPACE]: space, tab, newline, carriage return. *)
Definition is_ws (c : N) : bool :=
  N.eqb c 32 || N.eqb c 9 || N.eqb c 10 || N.eqb c 13.

Fixpoint skip_ws (s : pystr) : pystr :=
  match s with
  | c :: s' => if is_ws c then skip_ws s' else s
  | [] => []
  end.

Definition is_digit (c : N) : bool := (48 <=? c)%N && (c <=? 57)%N.

Fixpoint take_digits (s : pystr) : pystr * pystr :=
  match s with
  | c :: s' =>
      if is_digit c then let (d, r) := take_digits s' in (c :: d, r) else ([], s)
  | [] => ([], [])
  end.

Definition digits_value (d : pystr) : Z :=
  fold_left (fun acc c => acc * 10 + Z.of_N (c - 48))%Z d 0%Z.

Fixpoint starts_with (p s : pystr) : bool :=
  match p, s with
  | [], _ => true
  | x :: p', y :: s' => N.eqb x y && starts_with p' s'
  | _ :: _, [] => false
  end.

(** [float(numstr)]: the decimal [(-1)^neg * m * 10^k] rounded to nearest
    even binary64, overflowing to infinity. *)
Definition float_of_decimal (neg : bool) (m k : Z) : spec_float :=
  match m with
  | Z0 | Zneg _ => S754_zero neg
  | Zpos mp =>
      if (0 <=? k)%Z then
        binary_normalize prec emax (cond_Zopp neg (Zpos mp * 10 ^ k)) 0 neg
      else
        let '(q, e', l) := SFdiv_core_binary prec emax (Zpos mp) 0 (10 ^ (- k)) 0 in
        binary_round_aux prec emax neg q e' l
  end.

(** [_match_number_unicode]: an optional minus, then [0] or a nonzero digit
    and more digits, then an optional fraction (a dot and at least one digit),
    then an optional exponent ([e] or [E], an optional sign, at least one
    digit; without digits the [e] is left unread).  An [int] unless a
    fraction or exponent was read: [int()] of the literal, which raises
    [ValueError] past [int_max_str_digits] digits when that is not 0 (the
    check is made only above 640 digits, [_PY_LONG_MAX_STR_DIGITS_THRESHOLD]). *)
Definition match_number (int_max_str_digits : N) (s : pystr) : res :=
  let '(neg, s1) :=
    match s with
    | c :: r => if N.eqb c MINUS then (true, r) else (false, s)
    | [] => (false, s)
    end in
  let int_part :=
    match s1 with
    | c :: r =>
        if (49 <=? c)%N && (c <=? 57)%N then
          let (d, r') := take_digits r in Some (c :: d, r')
        else if N.eqb c 48 then Some ([c], r)
        else None
    | [] => None
    end in
  match int_part with
  | None => Raise JSONDecodeError
  | Some (ip, r1) =>
      let '(fp, is_frac, r2) :=
        match r1 with
        | dot :: d :: r' =>
            if N.eqb dot DOT && is_digit d then
              let (ds, r'') := take_digits r' in (d :: ds, true, r'')
            else ([], false, r1)
        | _ => ([], false, r1)
        end in
      let '(ex, is_exp, r3) :=
        match r2 with
        | e :: r' =>
            if N.eqb e 101 || N.eqb e 69 then
              let '(eneg, r'') :=
                match r' with
                | sg :: r0 =>
                    if N.eqb sg MINUS then (true, r0)
                    else if N.eqb sg PLUS then (false, r0)
                    else (false, r')
                | [] => (false, r')
                end in
              let (ds, r''') := take_digits r'' in
              match ds with
              | [] => (0%Z, false, r2)
              | _ => ((if eneg then - digits_value ds else digits_value ds)%Z, true, r''')
              end
            else (0%Z, false, r2)
        | [] => (0%Z, false, r2)
        end in
      if is_frac || is_exp then
        Found (PFloat (float_of_decimal neg (digits_value (ip ++ fp))
                        (ex - Z.of_nat (List.length fp)))) r3
      else if (0 <? int_max_str_digits)%N && (640 <? N.of_nat (List.length ip))%N
              && (int_max_str_digits <? N.of_nat (List.length ip))%N
      then Raise ValueError
      else Found (PInt (if neg then - digits_value ip else digits_value ip)%Z) r3
  end.

Definition hex_val (c : N) : option N :=
  if is_digit c then Some (c - 48)%N
  else if (97 <=? c)%N && (c <=? 102)%N then Some (c - 87)%N
  else if (65 <=? c)%N && (c <=? 70)%N then Some (c - 55)%N
  else None.

Definition hex4 (s : pystr) : option (N * pystr) :=
  match s with
  | a :: b :: c :: d :: r =>
      match hex_val a, hex_val b, hex_val c, hex_val d with
      | Some a, Some b, Some c, Some d => Some (a * 4096 + b * 256 + c * 16 + d, r)%N
      | _, _, _, _ => None
      end
  | _ => None
  end.

Definition is_high_surrogate (u : N) : bool := (55296 <=? u)%N && (u <=? 56319)%N.
Definition is_low_surrogate (u : N) : bool := (56320 <=? u)%N && (u <=? 57343)%N.
Definition join_surrogates (hi lo : N) : N := (65536 + (hi - 55296) * 1024 + (lo - 56320))%N.

(** The one-character escapes: a backslash followed by a double quote, a
    backslash, a slash, or one of the letters b, f, n, r, t. *)
Definition simple_escape (e : N) : option N :=
  if N.eqb e QUOTE then Some QUOTE
  else if N.eqb e BACKSLASH then Some BACKSLASH
  else if N.eqb e 47 then Some 47%N
  else if N.eqb e 98 then Some 8%N
  else if N.eqb e 102 then Some 12%N
  else if N.eqb e 110 then Some 10%N
  else if N.eqb e 114 then Some 13%N
  else if N.eqb e 116 then Some 9%N
  else None.

(** [scanstring_unicode] with [strict=True], after the opening quote;
    [acc] holds the decoded characters in reverse. *)
Fixpoint scanstring (fuel : nat) (s : pystr) (acc : pystr) : option (pystr * pystr) :=
  match fuel with
  | O => None
  | S fuel' =>
    match s with
    | [] => None
    | c :: r =>
      if N.eqb c QUOTE then Some (rev acc, r)
      else if N.eqb c BACKSLASH then
        match r with
        | [] => None
        | e :: r' =>
          if N.eqb e 117 then
            match hex4 r' with
            | None => None
            | Some (u, r'') =>
              if is_high_surrogate u && (7 <=? List.length r'')%nat then
                match r'' with
                | b :: u2 :: r3 =>
                  if N.eqb b BACKSLASH && N.eqb u2 117 then
                    match hex4 r3 with
                    | None => None
                    | Some (u', r4) =>
                      if is_low_surrogate u'
                      then scanstring fuel' r4 (join_surrogates u u' :: acc)
                      else scanstring fuel' r'' (u :: acc)
                    end
                  else scanstring fuel' r'' (u :: acc)
                | _ => scanstring fuel' r'' (u :: acc)
                end
              else scanstring fuel' r'' (u :: acc)
            end
          else
            match simple_escape e with
            | Some c' => scanstring fuel' r' (c' :: acc)
            | None => None
            end
        end
      else if (c <=? 31)%N then None
      else scanstring fuel' r (c :: acc)
    end
  end.

Definition scan_str (s : pystr) : option (pystr * pystr) :=
  scanstring (S (List.length s)) s [].

(** [json.decoder._CONSTANTS]: [NaN], [Infinity], [-Infinity].  Every
    [NaN] the decoder returns is the one object [json.decoder.NaN]. *)
Definition py_parse_constant (name : pystr) : option pyval :=
  if str_eqb name (txt "NaN") then Some (PFloat S754_nan)
  else if str_eqb name (txt "Infinity") then Some (PFloat (S754_infinity false))
  else if str_eqb name (txt "-Infinity") then Some (PFloat (S754_infinity true))
  else None.

Section Scanner.
(** The scanner's [parse_constant] hook. *)
Variable parse_constant : pystr -> option pyval.
(** [sys.get_int_max_str_digits()]. *)
Variable int_max_str_digits : N.

Definition constant (name : pystr) (s : pystr) : res :=
  match parse_constant name with
  | Some v => Found v (skipn (List.length name) s)
  | None => Raise JSONDecodeError
  end.

(** [scan_once_unicode], [_parse_array_unicode] (at an element) and
    [_parse_object_unicode] (at a key, [acc] the dict built so far);
    [budget] is the number of [Py_EnterRecursiveCall]s that still succeed. *)
Fixpoint scan_once (fuel budget : nat) (s : pystr) : res :=
  match fuel with
  | O => Raise JSONDecodeError
  | S f =>
    match s with
    | [] => Raise JSONDecodeError
    | c :: r =>
      if N.eqb c QUOTE then
        match scan_str r with
        | Some (str, r') => Found (PStr str) r'
        | None => Raise JSONDecodeError
        end
      else if N.eqb c LBRACE then
        match budget with
        | O => Raise RecursionError
        | S b =>
          let r0 := skip_ws r in
          match r0 with
          | c' :: r' => if N.eqb c' RBRACE then Found (PDict []) r' else parse_object f b r0 []
          | [] => parse_object f b r0 []
          end
        end
      else if N.eqb c LBRACKET then
        match budget with
        | O => Raise RecursionError
        | S b =>
          let r0 := skip_ws r in
          match r0 with
          | c' :: r' => if N.eqb c' RBRACKET then Found (PList []) r' else parse_array f b r0 []
          | [] => parse_array f b r0 []
          end
        end
      else if starts_with (txt "null") s then Found PNone (skipn 4 s)
      else if starts_with (txt "true") s then Found (PBool true) (skipn 4 s)
      else if starts_with (txt "false") s then Found (PBool false) (skipn 5 s)
      else if starts_with (txt "NaN") s then constant (txt "NaN") s
      else if starts_with (txt "Infinity") s then constant (txt "Infinity") s
      else if starts_with (txt "-Infinity") s then constant (txt "-Infinity") s
      else match_number int_max_str_digits s
    end
  end
with parse_array (fuel budget : nat) (s : pystr) (acc : list pyval) : res :=
  match fuel with
  | O => Raise JSONDecodeError
  | S f =>
    match scan_once f budget s with
    | Raise e => Raise e
    | Found v r =>
      match skip_ws r with
      | c :: r' =>
        if N.eqb c RBRACKET then Found (PList (rev (v :: acc))) r'
        else if N.eqb c COMMA then parse_array f budget (skip_ws r') (v :: acc)
        else Raise JSONDecodeError
      | [] => Raise JSONDecodeError
      end
    end
  end
with parse_object (fuel budget : nat) (s : pystr) (acc : pydict) : res :=
  match fuel with
  | O => Raise JSONDecodeError
  | S f =>
    match s with
    | c :: r =>
      if N.eqb c QUOTE then
        match scan_str r with
        | None => Raise JSONDecodeError
        | Some (k, r1) =>
          match skip_ws r1 with
          | c1 :: r2 =>
            if N.eqb c1 COLON then
              match scan_once f budget (skip_ws r2) with
              | Raise e => Raise e
              | Found v r3 =>
                let acc' := dict_setitem k v acc in
                match skip_ws r3 with
                | c2 :: r4 =>
                  if N.eqb c2 RBRACE then Found (PDict acc') r4
                  else if N.eqb c2 COMMA then parse_object f budget (skip_ws r4) acc'
                  else Raise JSONDecodeError
                | [] => Raise JSONDecodeError
                end
              end
            else Raise JSONDecodeError
          | [] => Raise JSONDecodeError
          end
        end
      else Raise JSONDecodeError
    | [] => Raise JSONDecodeError
    end
  end.

(** [JSONDecoder.decode] after the BOM check of [json.loads]. *)
Definition decode (budget : nat) (s : pystr) : decoded :=
  match s with
  | c :: _ => if N.eqb c BOM then Raised JSONDecodeError else
      match scan_once (3 * List.length s + 3) budget (skip_ws s) with
      | Found v r => match skip_ws r with [] => Decoded v | _ => Raised JSONDecodeError end
      | Raise e => Raised e
      end
  | [] => Raised JSONDecodeError
  end.

End Scanner.

(** The interpreter state [json.loads] depends on: how many nested
    containers it can still enter, and [sys.get_int_max_str_digits()]. *)
Record limits := mk_limits { recursion_budget : nat; max_str_digits : N }.

(** [json.loads(s)] with the default decoder. *)
Definition loads (l : limits) (s : pystr) : decoded :=
  decode py_parse_constant (max_str_digits l) (recursion_budget l) s.

(** Modelled from the spec's words "syntactically valid JSON": the JSON text
    grammar of RFC 8259, which has no [NaN], [Infinity] or [-Infinity] and
    no limit on nesting or on the digits of a number; it is the scanner
    above with no named constants, no digit limit, and a recursion budget of
    the text's length, which no nesting in the text can reach. *)
Definition rfc8259_valid (s : pystr) : bool :=
  match decode (fun _ => None) 0 (List.length s) s with Decoded _ => true | Raised _ => false end.

End Json.

(* ------------------------------------------------------------------ *)
(** ** Python [==] on decoded values

    [bool] is a subclass of [int]; [int] and [float] compare exactly
    ([float_richcompare]); [float] equality is IEEE ([nan != nan]).  Inside a
    [list] or [dict] the items are compared with [PyObject_RichCompareBool],
    which first tests identity: the only decoded values whose identity
    changes the answer are the [NaN]s, all the one object
    [json.decoder.NaN], so two [NaN] items compare equal there. *)

Module PyEq.
Import Py.

Inductive num := NInt (z : Z) | NFloat (f : spec_float).

Definition as_number (v : pyval) : option num :=
  match v with
  | PBool b => Some (NInt (if b then 1 else 0)%Z)
  | PInt z => Some (NInt z)
  | PFloat f => Some (NFloat f)
  | _ => None
  end.

Definition float_eq_int (f : spec_float) (z : Z) : bool :=
  match f with
  | S754_zero _ => Z.eqb z 0
  | S754_finite s m e =>
      let v := cond_Zopp s (Zpos m) in
      if (0 <=? e)%Z then Z.eqb (v * 2 ^ e) z else Z.eqb v (z * 2 ^ (- e))
  | _ => false
  end.

Definition num_eq (a b : num) : bool :=
  match a, b with
  | NInt x, NInt y => Z.eqb x y
  | NFloat f, NFloat g => SFeqb f g
  | NFloat f, NInt z | NInt z, NFloat f => float_eq_int f z
  end.

(** The shared [json.decoder.NaN] object. *)
Definition is_nan_object (v : pyval) : bool :=
  match v with PFloat S754_nan => true | _ => false end.

(** [a == b]. *)
Fixpoint py_eq (a b : pyval) {struct a} : bool :=
  match a, b with
  | PNone, PNone => true
  | PStr s, PStr t => str_eqb s t
  | PList xs, PList ys =>
      (fix items (xs ys : list pyval) : bool :=
         match xs, ys with
         | [], [] => true
         | x :: xs', y :: ys' =>
             ((is_nan_object x && is_nan_object y) || py_eq x y) && items xs' ys'
         | _, _ => false
         end) xs ys
  | PDict d, PDict e =>
      Nat.eqb (List.length d) (List.length e) &&
      (fix entries (d : pydict) : bool :=
         match d with
         | [] => true
         | (k, v) :: d' =>
             match dict_lookup k e with
             | Some w => ((is_nan_object v && is_nan_object w) || py_eq v w) && entries d'
             | None => false
             end
         end) d
  | _, _ =>
      match as_number a, as_number b with
      | Some x, Some y => num_eq x y
      | _, _ => false
      end
  end.

(** [PyObject_RichCompareBool(a, b, Py_EQ)]: identity, then [==]. *)
Definition item_eq (a b : pyval) : bool :=
  (is_nan_object a && is_nan_object b) || py_eq a b.

End PyEq.

(* ------------------------------------------------------------------ *)
(** ** graphql-core, as far as the module uses it *)

Module GraphQL.
Import Py.

Inductive OperationType := QUERY | MUTATION | SUBSCRIPTION.

(** The top-level definitions of a document.  An anonymous selection set
    ([{ a }]) is an [OperationDefinitionNode] whose operation is [QUERY]. *)
Inductive DefinitionNode :=
| OperationDefinitionNode (operation : OperationType) (name : option pystr)
| FragmentDefinitionNode (name : pystr)
| TypeSystemDefinitionNode (kind : pystr).

Record DocumentNode := mkDocumentNode { definitions : list DefinitionNode }.

(** [graphql.Source(body)]: stores the body and the default name. *)
Record Source := mkSource { body : pyval; name : pystr }.

Definition Source_init (body : pyval) : Source := mkSource body (txt "GraphQL request").

End GraphQL.

(* ------------------------------------------------------------------ *)
(** ** [graphql_ws/protocol.py] *)

Module Protocol.
Import Py GraphQL.

(** [class GQLMsgType(enum.Enum)]. *)
Inductive GQLMsgType :=
| CONNECTION_INIT | CONNECTION_ACK | PING | PONG
| SUBSCRIBE | NEXT | ERROR | COMPLETE.

Definition value (t : GQLMsgType) : pystr :=
  match t with
  | CONNECTION_INIT => txt "connection_init"
  | CONNECTION_ACK => txt "connection_ack"
  | PING => txt "ping"
  | PONG => txt "pong"
  | SUBSCRIBE => txt "subscribe"
  | NEXT => txt "next"
  | ERROR => txt "error"
  | COMPLETE => txt "complete"
  end.

(** The members in definition order. *)
Definition members : list GQLMsgType :=
  [CONNECTION_INIT; CONNECTION_ACK; PING; PONG; SUBSCRIBE; NEXT; ERROR; COMPLETE].

Definition GQLMsgType_eqb (a b : GQLMsgType) : bool :=
  match a, b with
  | CONNECTION_INIT, CONNECTION_INIT | CONNECTION_ACK, CONNECTION_ACK
  | PING, PING | PONG, PONG | SUBSCRIBE, SUBSCRIBE | NEXT, NEXT
  | ERROR, ERROR | COMPLETE, COMPLETE => true
  | _, _ => false
  end.

(** The exceptions the module raises or lets through, under the spec's
    names:  [MalformedJSON] is [json.JSONDecodeError];
    [InvalidEnvelopeShape] is [TypeError("Message must be an object")];
    [InvalidMessageKind] is the [ValueError] of [GQLMsgType(value)];
    [InvalidPayloadShape] is [TypeError("Payload must be an object")];
    [KeyError] is raised by [payload[key]]; [RecursionError] and
    [ValueError] (an integer literal past the digit limit) come from
    [json.loads] unchanged. *)
Inductive error :=
| MalformedJSON
| InvalidEnvelopeShape
| InvalidMessageKind
| InvalidPayloadShape
| KeyError
| RecursionError
| ValueError.

Inductive result (A : Type) := Ok (a : A) | Err (e : error).
Arguments Ok {A} a.
Arguments Err {A} e.

Definition bind {A B} (c : result A) (k : A -> result B) : result B :=
  match c with Ok a => k a | Err e => Err e end.

Notation "x <- c ;; k" := (bind c (fun x => k))
  (at level 61, c at next level, right associativity).

(** [GQLMsgType(value)]: [Enum.__new__] returns the member whose value is
    [== value] (by the value map, or by a linear search for an unhashable
    value); otherwise [_missing_] gives [None] and it raises [ValueError]. *)
Definition GQLMsgType_of (v : pyval) : result GQLMsgType :=
  match find (fun m => PyEq.py_eq (PStr (value m)) v) members with
  | Some m => Ok m
  | None => Err InvalidMessageKind
  end.

(** [class OperationMessagePayload(collections.abc.Mapping)]. *)
Module Payload.

Record OperationMessagePayload := mk { _payload : pydict }.

Definition is_None (v : pyval) : bool := match v with PNone => true | _ => false end.
Definition is_dict (v : pyval) : bool := match v with PDict _ => true | _ => false end.

(** [__init__]: the [isinstance] guard, then [payload or {}]. *)
Definition init (payload : pyval) : result OperationMessagePayload :=
  if negb (is_None payload) && negb (is_dict payload) then Err InvalidPayloadShape
  else Ok (mk (match payload with PDict ((_ :: _) as d) => d | _ => [] end)).

(** [__getitem__], [__iter__], [__len__]. *)
Definition getitem (p : OperationMessagePayload) (key : pystr) : result pyval :=
  match dict_lookup key (_payload p) with Some v => Ok v | None => Err KeyError end.

Definition iter (p : OperationMessagePayload) : list pystr := map fst (_payload p).

Definition len (p : OperationMessagePayload) : nat := List.length (_payload p).

(** The [Mapping] mixins [get] and [__contains__]: both catch the
    [KeyError] of [__getitem__], its only exception. *)
Definition get (p : OperationMessagePayload) (key : pystr) : pyval :=
  match getitem p key with Ok v => v | Err _ => PNone end.

Definition contains (p : OperationMessagePayload) (key : pystr) : bool :=
  match getitem p key with Ok _ => true | Err _ => false end.

(** [Mapping.__eq__]: [dict(self.items()) == dict(other.items())]. *)
Definition eq (p q : OperationMessagePayload) : bool :=
  PyEq.py_eq (PDict (_payload p)) (PDict (_payload q)).

Definition query (p : OperationMessagePayload) : pyval := get p (txt "query").
Definition variable_values (p : OperationMessagePayload) : pyval := get p (txt "variables").
Definition operation_name (p : OperationMessagePayload) : pyval := get p (txt "operationName").

Definition source (p : OperationMessagePayload) : Source := Source_init (query p).

Section Parsing.

(** [graphql.parse] on a [str]: its syntax tree, or [None] where it raises
    ([GraphQLSyntaxError]); the parser is external to this repository. *)
Variable parse : pystr -> option DocumentNode.

(** [graphql.parse] on a [list]: graphql-core's [Source] keeps a body of
    any type and its lexer reads [body[i]] as characters, so a list of
    one-character strings such as [['{', 'a', '}']] lexes and parses.  Every
    name or string token it builds holds a slice of the list: a definition
    that starts with a keyword raises [TypeError] (the keyword is looked up
    in a [dict], and a list is unhashable), and so does a description
    (joining the slices); what parses is a run of anonymous queries
    [{ ... }].  [parse_list] gives how many, or [None] where it raises. *)
Variable parse_list : list pyval -> option nat.

(** [graphql.parse(source)] on any value.  [None], a [bool], an [int] or
    a [float] has no [len]: [TypeError].  A [dict] from the decoder has
    [str] keys, so [body[0]] raises [KeyError], and an empty one holds no
    definition: [GraphQLSyntaxError]. *)
Definition graphql_parse (source : pyval) : option DocumentNode :=
  match source with
  | PStr s => parse s
  | PList xs =>
      match parse_list xs with
      | Some n => Some (mkDocumentNode (repeat (OperationDefinitionNode QUERY None) n))
      | None => None
      end
  | _ => None
  end.

(** [document]: [graphql.parse(self.query)], any [Exception] giving [None]. *)
Definition document (p : OperationMessagePayload) : option DocumentNode :=
  graphql_parse (query p).

Definition is_subscription_definition (d : DefinitionNode) : bool :=
  match d with
  | OperationDefinitionNode SUBSCRIPTION _ => true
  | _ => false
  end.

(** [has_subscription_operation]: [any([...])] over the definitions. *)
Definition has_subscription_operation (p : OperationMessagePayload) : bool :=
  match document p with
  | Some doc => existsb is_subscription_definition (definitions doc)
  | None => false
  end.

End Parsing.

End Payload.

(** [class OperationMessage]. *)
Module Message.

Record OperationMessage := mk {
  _type : GQLMsgType;
  _id : pyval;
  _payload : Payload.OperationMessagePayload }.

(** [__init__(type, id=None, payload=None)]. *)
Definition init (type id payload : pyval) : result OperationMessage :=
  t <- GQLMsgType_of type ;;
  p <- Payload.init payload ;;
  Ok (mk t id p).

(** [load(data)]. *)
Definition load (data : pyval) : result OperationMessage :=
  match data with
  | PDict d => init (dict_get d (txt "type")) (dict_get d (txt "id")) (dict_get d (txt "payload"))
  | _ => Err InvalidEnvelopeShape
  end.

(** [loads(data)]: [cls.load(json.loads(data))]; the exceptions of
    [json.loads] go through. *)
Definition loads (l : Json.limits) (data : pystr) : result OperationMessage :=
  match Json.loads l data with
  | Json.Decoded v => load v
  | Json.Raised Json.JSONDecodeError => Err MalformedJSON
  | Json.Raised Json.RecursionError => Err RecursionError
  | Json.Raised Json.ValueError => Err ValueError
  end.

(** [__eq__] on two messages: [all([...])] of the three comparisons; the
    members of an [Enum] compare by identity. *)
Definition eq (a b : OperationMessage) : bool :=
  GQLMsgType_eqb (_type a) (_type b) && PyEq.py_eq (_id a) (_id b)
  && Payload.eq (_payload a) (_payload b).

End Message.

End Protocol.

(* ------------------------------------------------------------------ *)
(** ** Invariants and example inputs *)

Module Inv.
Import Py.

(** Every [dict] the decoder builds has unique keys, at every depth. *)
Inductive wf : pyval -> Prop :=
| wf_None : wf PNone
| wf_Bool b : wf (PBool b)
| wf_Int z : wf (PInt z)
| wf_Float f : wf (PFloat f)
| wf_Str s : wf (PStr s)
| wf_List xs : Forall wf xs -> wf (PList xs)
| wf_Dict d : NoDup (map fst d) -> Forall (fun kv => wf (snd kv)) d -> wf (PDict d).

End Inv.

Module Examples.
Import Py GraphQL.

(** A stand-in for [graphql.parse] on the spec's example queries. *)
Definition example_parse (s : pystr) : option DocumentNode :=
  if str_eqb s (txt "{ __typename }") then
    Some (mkDocumentNode [OperationDefinitionNode QUERY None])
  else if str_eqb s (txt "subscription { onThing }") then
    Some (mkDocumentNode [OperationDefinitionNode SUBSCRIPTION None])
  else None.

(** A stand-in for [graphql.parse] on a list body: [['{', 'a', '}']] is
    read as the text [{a}], one anonymous query. *)
Definition example_parse_list (xs : list pyval) : option nat :=
  if PyEq.py_eq (PList xs) (PList [PStr (txt "{"); PStr (txt "a"); PStr (txt "}")])
  then Some 1%nat else None.

(** CPython's defaults: 4300 digits for [int()], and a recursion budget
    below the default recursion limit of 1000 (the budget varies with the
    version and the caller's depth; no theorem depends on its value). *)
Definition default_limits : Json.limits := Json.mk_limits 900 4300.

(** The JSON text of [n] nested arrays, [[[...]]]. *)
Definition nested_arrays (n : nat) : pystr :=
  repeat Json.LBRACKET n ++ repeat Json.RBRACKET n.

(** The JSON text of an [int] written with [n] digits [1]. *)
Definition long_int (n : nat) : pystr := repeat 49%N n.

End Examples.

(* ================================================================== *)
(** * Properties *)

Import Py PyEq GraphQL Protocol.

(** Case analysis on every [match] of a hypothesis, with its equation. *)
Ltac destruct_hyp H :=
  repeat match type of H with
  | context [match ?x with _ => _ end] => let E := fresh "E" in destruct x eqn:E
  end.

Lemma str_eqb_eq : forall a b, str_eqb a b = true <-> a = b.
Proof.
  induction a as [|x a IH]; destruct b as [|y b]; simpl; split; intros H;
    try discriminate; try reflexivity.
  - apply andb_prop in H as [H1 H2]. apply N.eqb_eq in H1. apply IH in H2. subst. reflexivity.
  - injection H as -> ->. rewrite N.eqb_refl. simpl. apply IH. reflexivity.
Qed.

Lemma str_eqb_refl : forall a, str_eqb a a = true.
Proof. intros a. apply str_eqb_eq. reflexivity. Qed.

Lemma dict_lookup_In : forall k d v, dict_lookup k d = Some v -> In (k, v) d.
Proof.
  intros k d v. induction d as [|[k' v'] d IH]; simpl; intros H; [discriminate|].
  destruct (str_eqb k k') eqn:E.
  - apply str_eqb_eq in E. subst. injection H as ->. left. reflexivity.
  - right. apply IH. exact H.
Qed.

Lemma dict_lookup_None : forall k d, dict_lookup k d = None <-> ~ In k (map fst d).
Proof.
  intros k d. induction d as [|[k' v'] d IH]; simpl.
  - tauto.
  - destruct (str_eqb k k') eqn:E.
    + apply str_eqb_eq in E. subst. split; [discriminate | tauto].
    + rewrite IH. split; intros H; [intros [H1|H1]|]; try tauto.
      subst. rewrite str_eqb_refl in E. discriminate.
Qed.

Lemma dict_lookup_NoDup : forall k d v,
  NoDup (map fst d) -> In (k, v) d -> dict_lookup k d = Some v.
Proof.
  intros k d v. induction d as [|[k' v'] d IH]; simpl; intros Hnd Hin; [contradiction|].
  inversion Hnd as [|? ? Hnot Hnd']; subst.
  destruct Hin as [Heq|Hin].
  - injection Heq as -> ->. rewrite str_eqb_refl. reflexivity.
  - destruct (str_eqb k k') eqn:E.
    + apply str_eqb_eq in E. subst. exfalso. apply Hnot.
      apply in_map_iff. exists (k', v). split; [reflexivity | exact Hin].
    + apply IH; assumption.
Qed.

(** Induction over decoded values, through their lists and dicts. *)
Lemma pyval_ind' (P : pyval -> Prop)
  (HNone : P PNone) (HBool : forall b, P (PBool b)) (HInt : forall z, P (PInt z))
  (HFloat : forall f, P (PFloat f)) (HStr : forall s, P (PStr s))
  (HList : forall xs, Forall P xs -> P (PList xs))
  (HDict : forall d, Forall (fun kv => P (snd kv)) d -> P (PDict d)) :
  forall v, P v.
Proof.
  fix IH 1. intros [| b | z | f | s | xs | d].
  - exact HNone.
  - apply HBool.
  - apply HInt.
  - apply HFloat.
  - apply HStr.
  - apply HList. revert xs. fix IHl 1. intros [|x xs].
    + constructor.
    + constructor; [exact (IH x) | exact (IHl xs)].
  - apply HDict. revert d. fix IHd 1. intros [|[k x] d].
    + constructor.
    + constructor; [exact (IH x) | exact (IHd d)].
Qed.

Lemma Payload_init_dict : forall d, Payload.init (PDict d) = Ok (Payload.mk d).
Proof. intros [|kv d]; reflexivity. Qed.

Lemma GQLMsgType_eqb_refl : forall t, GQLMsgType_eqb t t = true.
Proof. intros []; reflexivity. Qed.

Lemma GQLMsgType_eqb_eq : forall a b, GQLMsgType_eqb a b = true <-> a = b.
Proof.
  intros a b. split; [|intros ->; apply GQLMsgType_eqb_refl].
  destruct a, b; simpl; congruence.
Qed.

Lemma find_some_spec {A} (f : A -> bool) l x : find f l = Some x -> f x = true /\ In x l.
Proof.
  induction l as [|y l IH]; simpl; [discriminate|].
  destruct (f y) eqn:E.
  - intros H. injection H as <-. split; [exact E | left; reflexivity].
  - intros H. destruct (IH H) as [H1 H2]. split; [exact H1 | right; exact H2].
Qed.

(* ------------------------------------------------------------------ *)
(** ** Message kinds *)

(** C3: constructing a [GQLMsgType] from one of the eight canonical
    strings succeeds and gives back that string as its value; any other
    string is rejected with [InvalidMessageKind], and so is an envelope
    whose ["type"] field is absent. *)
Theorem GQLMsgType_construct_spec :
  map value members =
    [txt "connection_init"; txt "connection_ack"; txt "ping"; txt "pong";
     txt "subscribe"; txt "next"; txt "error"; txt "complete"]
  /\ (forall t, GQLMsgType_of (PStr (value t)) = Ok t)
  /\ (forall s t, GQLMsgType_of (PStr s) = Ok t -> value t = s)
  /\ (forall s, ~ In s (map value members) -> GQLMsgType_of (PStr s) = Err InvalidMessageKind)
  /\ (forall d, dict_lookup (txt "type") d = None ->
        Message.load (PDict d) = Err InvalidMessageKind).
Proof.
  split; [reflexivity|]. split; [intros []; reflexivity|]. split; [|split].
  - intros s t H. unfold GQLMsgType_of in H.
    destruct (find _ members) as [m|] eqn:E; [|discriminate].
    injection H as <-. apply find_some_spec in E as [E _].
    simpl in E. apply str_eqb_eq in E. exact E.
  - intros s Hs. unfold GQLMsgType_of.
    destruct (find _ members) as [m|] eqn:E; [|reflexivity].
    exfalso. apply find_some_spec in E as [E Hin].
    simpl in E. apply str_eqb_eq in E. apply Hs. rewrite <- E.
    apply in_map. exact Hin.
  - intros d Hd. unfold Message.load, dict_get. rewrite Hd. reflexivity.
Qed.

(* ------------------------------------------------------------------ *)
(** ** Payload construction and read access *)

(** C4: [Payload(v)] succeeds exactly when [v] is a dict or [None], a
    [None] giving the empty mapping; [Payload(None)] and [Payload({})] are
    equal and both of size 0; an array, string, number or boolean is
    rejected with [InvalidPayloadShape]. *)
Theorem Payload_init_spec :
  (forall v, (exists p, Payload.init v = Ok p) <-> (v = PNone \/ exists d, v = PDict d))
  /\ (forall d, Payload.init (PDict d) = Ok (Payload.mk d))
  /\ Payload.init PNone = Ok (Payload.mk [])
  /\ (forall p q, Payload.init PNone = Ok p -> Payload.init (PDict []) = Ok q ->
        Payload.eq p q = true /\ Payload.len p = 0%nat /\ Payload.len q = 0%nat)
  /\ (forall v, v <> PNone -> (forall d, v <> PDict d) ->
        Payload.init v = Err InvalidPayloadShape).
Proof.
  split; [|split; [exact Payload_init_dict|split; [reflexivity|split]]].
  - intros v. split.
    + intros [p Hp]. destruct v; try discriminate; [left; reflexivity | right; eexists; reflexivity].
    + intros [->|[d ->]]; eexists; [reflexivity | apply Payload_init_dict].
  - intros p q Hp Hq. injection Hp as <-. injection Hq as <-. repeat split.
  - intros v H1 H2. destruct v; try reflexivity; exfalso; [exact (H1 eq_refl) | exact (H2 _ eq_refl)].
Qed.

(** C8: a payload built from a mapping [m] reads as [m]: [get] returns
    the bound value of a present key and [None] for a missing one, its size
    is the size of [m], [k in p] holds exactly for the keys of [m], and
    iteration gives the keys of [m] in insertion order. *)
Theorem Payload_read_access : forall m p,
  Payload.init (PDict m) = Ok p ->
  (forall k v, dict_lookup k m = Some v -> Payload.get p k = v)
  /\ (forall k, ~ In k (map fst m) -> Payload.get p k = PNone)
  /\ Payload.len p = List.length m
  /\ (forall k, Payload.contains p k = true <-> In k (map fst m))
  /\ Payload.iter p = map fst m.
Proof.
  intros m p H. rewrite Payload_init_dict in H. injection H as <-.
  unfold Payload.get, Payload.contains, Payload.getitem; simpl.
  split; [|split; [|split; [reflexivity|split; [|reflexivity]]]].
  - intros k v Hk. rewrite Hk. reflexivity.
  - intros k Hk. apply dict_lookup_None in Hk. rewrite Hk. reflexivity.
  - intros k. destruct (dict_lookup k m) eqn:E.
    + split; [intros _|reflexivity]. apply dict_lookup_In in E.
      apply in_map_iff. exists (k, p). split; [reflexivity | exact E].
    + apply dict_lookup_None in E. split; [discriminate | contradiction].
Qed.

(** C10: indexing a payload with a missing key, [p[k]], raises [KeyError];
    only [get] turns a missing key into [None]. *)
Theorem Payload_getitem_missing : forall p k,
  ~ In k (map fst (Payload._payload p)) ->
  Payload.getitem p k = Err KeyError /\ Payload.get p k = PNone.
Proof.
  intros p k Hk. apply dict_lookup_None in Hk.
  unfold Payload.get, Payload.getitem. rewrite Hk. split; reflexivity.
Qed.

(** C9: [source] wraps the query value, [None] when the ["query"] key is
    absent, in a [graphql.Source] named ["GraphQL request"]; it does not
    parse (its definition does not use the parser) and cannot fail. *)
Theorem Payload_source_spec : forall p,
  Payload.source p = mkSource (Payload.query p) (txt "GraphQL request")
  /\ (~ In (txt "query") (map fst (Payload._payload p)) ->
        Payload.source p = mkSource PNone (txt "GraphQL request")).
Proof.
  intros p. split; [reflexivity|]. intros Hq.
  unfold Payload.source, Payload.query, Payload.get, Payload.getitem.
  apply dict_lookup_None in Hq. rewrite Hq. reflexivity.
Qed.

(* ------------------------------------------------------------------ *)
(** ** Document and subscription detection *)

(** C5 (corrected): [document] never raises.  A missing query gives
    [None]; a [str] query gives exactly what [graphql.parse] gives, the
    syntax tree or [None] for a syntax error; a [list] query is handed to
    [graphql.parse] as well, and gives a document of anonymous queries
    where graphql-core lexes it, [None] where it raises; any other query
    value ([None], a [bool], a number, a [dict]) gives [None].  It is a
    function of the payload alone, parsed again at each use. *)
Theorem Payload_document_spec :
  forall (parse : pystr -> option DocumentNode) (parse_list : list pyval -> option nat) p,
  (~ In (txt "query") (map fst (Payload._payload p)) -> Payload.document parse parse_list p = None)
  /\ (forall s, Payload.getitem p (txt "query") = Ok (PStr s) ->
        Payload.document parse parse_list p = parse s)
  /\ (forall xs, Payload.getitem p (txt "query") = Ok (PList xs) ->
        Payload.document parse parse_list p =
          option_map (fun n => mkDocumentNode (repeat (OperationDefinitionNode QUERY None) n))
            (parse_list xs))
  /\ (forall v, Payload.getitem p (txt "query") = Ok v ->
        (forall s, v <> PStr s) -> (forall xs, v <> PList xs) ->
        Payload.document parse parse_list p = None).
Proof.
  intros parse parse_list p.
  unfold Payload.document, Payload.query, Payload.get.
  split; [|split; [|split]].
  - intros Hq. unfold Payload.getitem. apply dict_lookup_None in Hq. rewrite Hq. reflexivity.
  - intros s Hs. rewrite Hs. reflexivity.
  - intros xs Hs. rewrite Hs. simpl. destruct (parse_list xs); reflexivity.
  - intros v Hv Hs Hl. rewrite Hv.
    destruct v; try reflexivity; exfalso; [eapply Hs | eapply Hl]; reflexivity.
Qed.

(** A list query: the JSON message below carries [["{", "a", "}"]] as its
    query, which graphql-core parses into one anonymous query, so
    [document] is not [None] although the query is not a [str]. *)
Lemma Payload_document_spec_list_query :
  (match Message.loads Examples.default_limits
     (jtxt "{'type': 'subscribe', 'id': '1', 'payload': {'query': ['{', 'a', '}']}}") with
   | Ok m => Payload.document Examples.example_parse Examples.example_parse_list (Message._payload m)
   | Err _ => None
   end) = Some (mkDocumentNode [OperationDefinitionNode QUERY None]).
Proof. vm_compute. reflexivity. Qed.

(** C1: [has_subscription_operation] is true exactly when [document]
    succeeds and one of the top-level definitions is an operation
    definition of type subscription; it is false when the document is
    absent, when the query is not a string (a list query parses at most to
    anonymous queries, any other value to no document) and when no operation
    definition is a subscription (queries, mutations, anonymous queries,
    or no operation definition at all). *)
Theorem has_subscription_operation_spec :
  forall (parse : pystr -> option DocumentNode) (parse_list : list pyval -> option nat)
    (p : Payload.OperationMessagePayload),
    (Payload.has_subscription_operation parse parse_list p = true <->
       exists doc, Payload.document parse parse_list p = Some doc /\
         exists name, In (OperationDefinitionNode SUBSCRIPTION name) (definitions doc))
    /\ (Payload.document parse parse_list p = None -> Payload.has_subscription_operation parse parse_list p = false)
    /\ ((forall s, Payload.query p <> PStr s) -> Payload.has_subscription_operation parse parse_list p = false)
    /\ (forall doc, Payload.document parse parse_list p = Some doc ->
          (forall op name, In (OperationDefinitionNode op name) (definitions doc) ->
             op <> SUBSCRIPTION) ->
          Payload.has_subscription_operation parse parse_list p = false).
Proof.
  intros parse parse_list p. unfold Payload.has_subscription_operation.
  split; [|split; [|split]].
  - destruct (Payload.document parse parse_list p) as [doc|]; [|split; [discriminate|intros [? [H _]]; discriminate]].
    rewrite existsb_exists. split.
    + intros [d [Hin Hd]]. exists doc. split; [reflexivity|].
      destruct d as [[] n| |]; try discriminate. exists n. exact Hin.
    + intros [doc' [Heq [n Hin]]]. injection Heq as <-.
      exists (OperationDefinitionNode SUBSCRIPTION n). split; [exact Hin | reflexivity].
  - intros ->. reflexivity.
  - intros Hs. unfold Payload.document, Payload.graphql_parse.
    destruct (Payload.query p); try reflexivity; [exfalso; eapply Hs; reflexivity|].
    match goal with |- context [parse_list ?xs] => destruct (parse_list xs) as [n|] end; [|reflexivity]. simpl.
    induction n as [|n IH]; [reflexivity | exact IH].
  - intros doc -> Hall. apply Bool.not_true_iff_false. rewrite existsb_exists.
    intros [d [Hin Hd]]. destruct d as [[] n| |]; try discriminate.
    exact (Hall SUBSCRIPTION n Hin eq_refl).
Qed.

(** The spec's examples: an anonymous query is not a subscription, an
    explicit subscription is. *)
Lemma has_subscription_operation_spec_witness :
  Payload.has_subscription_operation Examples.example_parse Examples.example_parse_list
    (Payload.mk [(txt "query", PStr (txt "{ __typename }"))]) = false
  /\ Payload.has_subscription_operation Examples.example_parse Examples.example_parse_list
    (Payload.mk [(txt "query", PStr (txt "subscription { onThing }"))]) = true.
Proof.
  split.
  - apply (proj2 (proj2 (proj2 (has_subscription_operation_spec Examples.example_parse Examples.example_parse_list
             (Payload.mk [(txt "query", PStr (txt "{ __typename }"))])))))
      with (doc := mkDocumentNode [OperationDefinitionNode QUERY None]).
    + vm_compute. reflexivity.
    + intros op n [H|[]]. injection H as <- _. discriminate.
  - apply (proj2 (proj1 (has_subscription_operation_spec Examples.example_parse Examples.example_parse_list
             (Payload.mk [(txt "query", PStr (txt "subscription { onThing }"))])))).
    exists (mkDocumentNode [OperationDefinitionNode SUBSCRIPTION None]).
    split; [vm_compute; reflexivity | exists None; left; reflexivity].
Defined.

(* ------------------------------------------------------------------ *)
(** ** Value equality *)

Lemma SFeqb_refl : forall f,
  SFeqb f f = negb (match f with S754_nan => true | _ => false end).
Proof.
  intros [s|s| |s m e]; unfold SFeqb; simpl; try reflexivity;
    destruct s; try reflexivity; rewrite Z.compare_refl, Pos.compare_cont_refl; reflexivity.
Qed.

Lemma py_eq_PDict : forall d e,
  py_eq (PDict d) (PDict e) =
    Nat.eqb (List.length d) (List.length e) &&
    forallb (fun kv => match dict_lookup (fst kv) e with
                       | Some w => item_eq (snd kv) w
                       | None => false end) d.
Proof.
  intros d e. simpl. f_equal.
  induction d as [|[k v] d IH]; simpl; [reflexivity|].
  destruct (dict_lookup k e); [rewrite IH; reflexivity | reflexivity].
Qed.

(** [==] is reflexive on decoded values except at a [NaN]. *)
Lemma py_eq_refl : forall v, Inv.wf v -> py_eq v v = negb (is_nan_object v).
Proof.
  induction v as [| b | z | f | s | xs IH | d IH] using pyval_ind'; intros Hwf.
  - reflexivity.
  - destruct b; reflexivity.
  - simpl. apply Z.eqb_refl.
  - apply SFeqb_refl.
  - simpl. apply str_eqb_refl.
  - inversion Hwf as [| | | | | ? Hxs |]; subst. simpl.
    induction xs as [|x xs IHxs]; [reflexivity|].
    inversion IH as [|? ? Hx IH']; subst. inversion Hxs as [|? ? Hwx Hxs']; subst.
    simpl. rewrite (IHxs IH' (Inv.wf_List xs Hxs') Hxs').
    destruct (is_nan_object x) eqn:E; [reflexivity|].
    rewrite (Hx Hwx). reflexivity.
  - inversion Hwf as [| | | | | | ? Hnd Hd]; subst.
    rewrite py_eq_PDict, Nat.eqb_refl. simpl. apply forallb_forall.
    intros [k v] Hin. simpl. rewrite (dict_lookup_NoDup k d v Hnd Hin).
    rewrite Forall_forall in IH, Hd. specialize (IH _ Hin). specialize (Hd _ Hin).
    simpl in IH, Hd. unfold item_eq.
    destruct (is_nan_object v) eqn:E; [reflexivity|]. rewrite (IH Hd). reflexivity.
Qed.

Lemma item_eq_refl : forall v, Inv.wf v -> item_eq v v = true.
Proof.
  intros v Hv. unfold item_eq. rewrite (py_eq_refl v Hv).
  destruct (is_nan_object v); reflexivity.
Qed.

Lemma keys_incl_lookup : forall d e,
  (forall k, dict_lookup k d <> None -> dict_lookup k e <> None) ->
  incl (map fst d) (map fst e).
Proof.
  intros d e H k Hk.
  destruct (dict_lookup k e) eqn:E.
  - apply dict_lookup_In in E. apply in_map_iff. exists (k, p). split; [reflexivity | exact E].
  - exfalso. apply (H k); [|exact E].
    intros Hd. apply dict_lookup_None in Hd. contradiction.
Qed.

(** Dict equality is key/value agreement, whatever the insertion order. *)
Lemma py_eq_dict_pointwise : forall d e,
  NoDup (map fst d) -> NoDup (map fst e) ->
  (py_eq (PDict d) (PDict e) = true <->
   forall k, match dict_lookup k d, dict_lookup k e with
             | Some v, Some w => item_eq v w = true
             | None, None => True
             | _, _ => False
             end).
Proof.
  intros d e Hd He. rewrite py_eq_PDict, andb_true_iff, Nat.eqb_eq, forallb_forall.
  split.
  - intros [Hlen Hall].
    assert (Hsub : forall k, dict_lookup k d <> None -> dict_lookup k e <> None).
    { intros k Hk. destruct (dict_lookup k d) as [v|] eqn:Ek; [|contradiction].
      apply dict_lookup_In in Ek. specialize (Hall _ Ek). simpl in Hall.
      destruct (dict_lookup k e); [discriminate | discriminate Hall]. }
    assert (Hback : incl (map fst e) (map fst d)).
    { apply NoDup_length_incl; [exact Hd | rewrite !length_map; lia |].
      apply keys_incl_lookup. exact Hsub. }
    intros k. destruct (dict_lookup k d) as [v|] eqn:Ek.
    + apply dict_lookup_In in Ek. specialize (Hall _ Ek). simpl in Hall.
      destruct (dict_lookup k e); [exact Hall | discriminate].
    + destruct (dict_lookup k e) as [w|] eqn:Ee; [|exact I].
      apply dict_lookup_None in Ek. apply Ek. apply Hback.
      apply dict_lookup_In in Ee. apply in_map_iff. exists (k, w). split; [reflexivity | exact Ee].
  - intros Hpt. split.
    + rewrite <- (length_map fst d), <- (length_map fst e).
      apply Nat.le_antisymm; apply NoDup_incl_length; try assumption;
        apply keys_incl_lookup; intros k; specialize (Hpt k);
        destruct (dict_lookup k d), (dict_lookup k e); try contradiction; congruence.
    + intros [k v] Hin. simpl. specialize (Hpt k).
      rewrite (dict_lookup_NoDup k d v Hd Hin) in Hpt.
      destruct (dict_lookup k e); [exact Hpt | contradiction].
Qed.

(* ------------------------------------------------------------------ *)
(** ** What the decoder builds *)

Lemma match_number_scalar : forall n s v r, Json.match_number n s = Json.Found v r -> Inv.wf v.
Proof.
  intros n s v r H. unfold Json.match_number in H. destruct_hyp H; try discriminate;
  injection H as <- <-; constructor.
Qed.

(** With no digit limit a number that is read is read the same under any
    limit, or [int()] raises [ValueError]. *)
Lemma match_number_limit : forall n s v r,
  Json.match_number 0 s = Json.Found v r ->
  Json.match_number n s = Json.Found v r \/ Json.match_number n s = Json.Raise Json.ValueError.
Proof.
  intros n s v r. unfold Json.match_number.
  repeat (match goal with |- context [match ?x with _ => _ end] => destruct x end; simpl);
    intros H; first [discriminate H | left; exact H | right; reflexivity].
Qed.

Lemma setitem_keys : forall k v d x,
  In x (map fst (dict_setitem k v d)) <-> x = k \/ In x (map fst d).
Proof.
  intros k v d x. induction d as [|[k' v'] d IH]; simpl.
  - firstorder congruence.
  - destruct (str_eqb k k') eqn:E.
    + apply str_eqb_eq in E. subst. simpl. firstorder congruence.
    + simpl. rewrite IH. firstorder congruence.
Qed.

Lemma setitem_NoDup : forall k v d, NoDup (map fst d) -> NoDup (map fst (dict_setitem k v d)).
Proof.
  intros k v d. induction d as [|[k' v'] d IH]; simpl; intros Hnd.
  - constructor; [intros []|constructor].
  - inversion Hnd as [|? ? Hnot Hnd']; subst.
    destruct (str_eqb k k') eqn:E; simpl; constructor; auto.
    rewrite setitem_keys. intros [->|H]; [|contradiction].
    rewrite str_eqb_refl in E. discriminate.
Qed.

Lemma setitem_wf : forall k v d,
  Forall (fun kv => Inv.wf (snd kv)) d -> Inv.wf v ->
  Forall (fun kv => Inv.wf (snd kv)) (dict_setitem k v d).
Proof.
  intros k v d. induction d as [|[k' v'] d IH]; simpl; intros Hd Hv.
  - constructor; [exact Hv | constructor].
  - inversion Hd as [|? ? Hh Ht]; subst.
    destruct (str_eqb k k'); constructor; auto.
Qed.

(** Every value the decoder returns is well formed, for any hook that
    returns well-formed values. *)
Section Decoded.
Variable h : pystr -> option pyval.
Variable n : N.
Hypothesis Hh : forall k v, h k = Some v -> Inv.wf v.

Lemma scan_wf : forall f,
  (forall b s v r, Json.scan_once h n f b s = Json.Found v r -> Inv.wf v) /\
  (forall b s acc v r, Forall Inv.wf acc -> Json.parse_array h n f b s acc = Json.Found v r -> Inv.wf v) /\
  (forall b s acc v r, NoDup (map fst acc) -> Forall (fun kv => Inv.wf (snd kv)) acc ->
     Json.parse_object h n f b s acc = Json.Found v r -> Inv.wf v).
Proof.
  induction f as [|f IH]; [repeat split; intros; discriminate|].
  destruct IH as [IH1 [IH2 IH3]]. split; [|split].
  - intros b s v r H. simpl in H. destruct s as [|c s]; [discriminate|].
    destruct_hyp H; try discriminate.
    all: try (injection H as <- <-; constructor; constructor).
    all: first
      [ refine (IH3 _ _ _ _ _ _ _ H); constructor
      | refine (IH2 _ _ _ _ _ _ H); constructor
      | unfold Json.constant in H; destruct_hyp H; try discriminate;
        injection H as <- _; eapply Hh; eassumption
      | eapply match_number_scalar; exact H
      | injection H as <- _; eapply Hh; eassumption ].
  - intros b s acc v r Hacc H. simpl in H. destruct_hyp H; try discriminate.
    all: try (eapply IH2; [constructor; [eapply IH1; eassumption | exact Hacc] | exact H]).
    injection H as <- _. constructor. apply Forall_app. split; [apply Forall_rev; exact Hacc|].
    constructor; [eapply IH1; eassumption | constructor].
  - intros b s acc v r Hnd Hacc H. simpl in H. destruct_hyp H; try discriminate.
    all: try (injection H as <- _; constructor;
              [apply setitem_NoDup; exact Hnd | apply setitem_wf; [exact Hacc | eapply IH1; eassumption]]).
    eapply IH3; [apply setitem_NoDup; exact Hnd | apply setitem_wf; [exact Hacc | eapply IH1; eassumption] | exact H].
Qed.

Lemma decode_wf : forall b s v, Json.decode h n b s = Json.Decoded v -> Inv.wf v.
Proof.
  intros b s v H. unfold Json.decode in H. destruct_hyp H; try discriminate.
  injection H as <-. eapply (proj1 (scan_wf _)). eassumption.
Qed.
End Decoded.

(** What the scanner reads with no named constants, no digit limit and any
    recursion budget, it reads the same with any hook, any digit limit and
    any budget, unless it runs out of budget ([RecursionError]) or meets an
    [int] past the limit ([ValueError]) first. *)
Section Limits.
Variable h : pystr -> option pyval.
Variable n : N.

Lemma scan_limits : forall f,
  (forall B b s v r, Json.scan_once (fun _ => None) 0 f B s = Json.Found v r ->
     Json.scan_once h n f b s = Json.Found v r
     \/ Json.scan_once h n f b s = Json.Raise Json.RecursionError
     \/ Json.scan_once h n f b s = Json.Raise Json.ValueError) /\
  (forall B b s acc v r, Json.parse_array (fun _ => None) 0 f B s acc = Json.Found v r ->
     Json.parse_array h n f b s acc = Json.Found v r
     \/ Json.parse_array h n f b s acc = Json.Raise Json.RecursionError
     \/ Json.parse_array h n f b s acc = Json.Raise Json.ValueError) /\
  (forall B b s acc v r, Json.parse_object (fun _ => None) 0 f B s acc = Json.Found v r ->
     Json.parse_object h n f b s acc = Json.Found v r
     \/ Json.parse_object h n f b s acc = Json.Raise Json.RecursionError
     \/ Json.parse_object h n f b s acc = Json.Raise Json.ValueError).
Proof.
  induction f as [|f IH]; [repeat split; intros; discriminate|].
  destruct IH as [IH1 [IH2 IH3]]. split; [|split].
  - intros B b s v r H. destruct s as [|c s]; [discriminate|]. simpl in *.
    destruct (N.eqb c Json.QUOTE); [left; exact H|].
    destruct (N.eqb c Json.LBRACE).
    { destruct B as [|B]; [discriminate|]. destruct b as [|b]; [right; left; reflexivity|].
      destruct (Json.skip_ws s) as [|c' r'];
        [eapply IH3; exact H | destruct (N.eqb c' Json.RBRACE); [left; exact H | eapply IH3; exact H]]. }
    destruct (N.eqb c Json.LBRACKET).
    { destruct B as [|B]; [discriminate|]. destruct b as [|b]; [right; left; reflexivity|].
      destruct (Json.skip_ws s) as [|c' r'];
        [eapply IH2; exact H | destruct (N.eqb c' Json.RBRACKET); [left; exact H | eapply IH2; exact H]]. }
    repeat match goal with |- context [if ?b then _ else _] => destruct b end;
      try (left; exact H); try discriminate H.
    destruct (match_number_limit n _ _ _ H) as [E|E]; rewrite E; auto.
  - intros B b s acc v r H. simpl in *.
    destruct (Json.scan_once (fun _ => None) 0 f B s) as [w r'|e] eqn:E; [|discriminate].
    destruct (IH1 B b s w r' E) as [E'|[E'|E']]; rewrite E'; [|right; left; reflexivity|right; right; reflexivity].
    destruct (Json.skip_ws r') as [|c r'']; [discriminate|].
    destruct (N.eqb c Json.RBRACKET); [left; exact H|].
    destruct (N.eqb c Json.COMMA); [eapply IH2; exact H | discriminate].
  - intros B b s acc v r H. simpl in *. destruct s as [|c s]; [discriminate|].
    destruct (N.eqb c Json.QUOTE); [|discriminate].
    destruct (Json.scan_str s) as [[k r1]|]; [|discriminate].
    destruct (Json.skip_ws r1) as [|c1 r2]; [discriminate|].
    destruct (N.eqb c1 Json.COLON); [|discriminate].
    destruct (Json.scan_once (fun _ => None) 0 f B (Json.skip_ws r2)) as [w r3|e] eqn:E; [|discriminate].
    destruct (IH1 B b _ w r3 E) as [E'|[E'|E']]; rewrite E'; [|right; left; reflexivity|right; right; reflexivity].
    destruct (Json.skip_ws r3) as [|c2 r4]; [discriminate|].
    destruct (N.eqb c2 Json.RBRACE); [left; exact H|].
    destruct (N.eqb c2 Json.COMMA); [eapply IH3; exact H | discriminate].
Qed.

Lemma decode_limits : forall B b s v,
  Json.decode (fun _ => None) 0 B s = Json.Decoded v ->
  Json.decode h n b s = Json.Decoded v
  \/ Json.decode h n b s = Json.Raised Json.RecursionError
  \/ Json.decode h n b s = Json.Raised Json.ValueError.
Proof.
  intros B b s v H. unfold Json.decode in *. destruct s as [|c s']; [discriminate|].
  destruct (N.eqb c Json.BOM); [discriminate|].
  destruct (Json.scan_once (fun _ => None) 0 (3 * List.length (c :: s') + 3) B (Json.skip_ws (c :: s')))
    as [w r|e] eqn:E; [|discriminate].
  destruct (proj1 (scan_limits _) B b _ w r E) as [E'|[E'|E']]; rewrite E'; auto.
Qed.
End Limits.

Lemma loads_wf : forall l s v, Json.loads l s = Json.Decoded v -> Inv.wf v.
Proof.
  intros l. apply decode_wf. intros k v H. unfold Json.py_parse_constant in H.
  destruct_hyp H; try discriminate; injection H as <-; constructor.
Qed.

Lemma dict_get_wf : forall d k,
  Forall (fun kv => Inv.wf (snd kv)) d -> Inv.wf (dict_get d k).
Proof.
  intros d k Hd. unfold dict_get. destruct (dict_lookup k d) as [v|] eqn:E; [|constructor].
  apply dict_lookup_In in E. rewrite Forall_forall in Hd. exact (Hd _ E).
Qed.

Lemma perm_lookup : forall d e k,
  NoDup (map fst d) -> Permutation d e -> dict_lookup k d = dict_lookup k e.
Proof.
  intros d e k Hd Hp.
  assert (He : NoDup (map fst e)) by (eapply Permutation_NoDup; [apply Permutation_map; exact Hp | exact Hd]).
  destruct (dict_lookup k d) as [v|] eqn:E.
  - apply dict_lookup_In in E. symmetry. apply dict_lookup_NoDup; [exact He|].
    eapply Permutation_in; [exact Hp | exact E].
  - symmetry. apply dict_lookup_None. apply dict_lookup_None in E. intros Hin. apply E.
    eapply Permutation_in; [apply Permutation_map, Permutation_sym; exact Hp | exact Hin].
Qed.

(* ------------------------------------------------------------------ *)
(** ** Message equality *)

(** C7: two messages are equal exactly when their kinds are the same member,
    their ids are equal under [==], and their payload mappings bind the
    same keys to equal values, whatever the insertion order; in particular
    two messages whose payloads are the same well-formed mapping with its
    keys in another order are equal. *)
Theorem Message_eq_spec :
  (forall a b,
     NoDup (map fst (Payload._payload (Message._payload a))) ->
     NoDup (map fst (Payload._payload (Message._payload b))) ->
     (Message.eq a b = true <->
        Message._type a = Message._type b
        /\ py_eq (Message._id a) (Message._id b) = true
        /\ forall k, match dict_lookup k (Payload._payload (Message._payload a)),
                           dict_lookup k (Payload._payload (Message._payload b)) with
                     | Some v, Some w => item_eq v w = true
                     | None, None => True
                     | _, _ => False
                     end))
  /\ (forall a b,
        Inv.wf (PDict (Payload._payload (Message._payload a))) ->
        Permutation (Payload._payload (Message._payload a)) (Payload._payload (Message._payload b)) ->
        Message._type a = Message._type b ->
        py_eq (Message._id a) (Message._id b) = true ->
        Message.eq a b = true).
Proof.
  assert (Hiff : forall a b,
     NoDup (map fst (Payload._payload (Message._payload a))) ->
     NoDup (map fst (Payload._payload (Message._payload b))) ->
     (Message.eq a b = true <->
        Message._type a = Message._type b
        /\ py_eq (Message._id a) (Message._id b) = true
        /\ forall k, match dict_lookup k (Payload._payload (Message._payload a)),
                           dict_lookup k (Payload._payload (Message._payload b)) with
                     | Some v, Some w => item_eq v w = true
                     | None, None => True
                     | _, _ => False
                     end)).
  { intros [ta ia [pa]] [tb ib [pb]] Ha Hb. simpl in Ha, Hb.
    unfold Message.eq, Payload.eq.
    cbn [Message._type Message._id Message._payload Payload._payload].
    rewrite !andb_true_iff, GQLMsgType_eqb_eq, (py_eq_dict_pointwise pa pb Ha Hb).
    tauto. }
  split; [exact Hiff|].
  intros [ta ia [pa]] [tb ib [pb]] Hwf Hp Ht Hi. simpl in *.
  inversion Hwf as [| | | | | | ? Hnd Hall]; subst.
  assert (Hnd' : NoDup (map fst pb)) by (eapply Permutation_NoDup; [apply Permutation_map; exact Hp | exact Hnd]).
  apply (Hiff (Message.mk tb ia (Payload.mk pa)) (Message.mk tb ib (Payload.mk pb)) Hnd Hnd'). simpl.
  split; [reflexivity | split; [exact Hi|]].
  intros k. rewrite <- (perm_lookup pa pb k Hnd Hp).
  destruct (dict_lookup k pa) as [v|] eqn:E; [|exact I].
  apply dict_lookup_In in E. rewrite Forall_forall in Hall.
  apply item_eq_refl. exact (Hall _ E).
Qed.

(** Two [ping] messages whose payloads list the keys [a] and [b] in the two
    orders are equal. *)
Lemma Message_eq_spec_witness :
  Message.eq
    (Message.mk PING PNone (Payload.mk [(txt "a", PInt 1); (txt "b", PInt 2)]))
    (Message.mk PING PNone (Payload.mk [(txt "b", PInt 2); (txt "a", PInt 1)])) = true.
Proof.
  apply (proj2 Message_eq_spec); simpl.
  - constructor.
    + vm_compute. constructor; [intros [H|[]]; discriminate H | constructor; [intros [] | constructor]].
    + repeat constructor.
  - apply perm_swap.
  - reflexivity.
  - reflexivity.
Defined.

(* ------------------------------------------------------------------ *)
(** ** From text to message *)

(** C2 (as the code has it): [loads] fails with [MalformedJSON] exactly when
    Python's [json.loads] raises [JSONDecodeError]; it does not on an RFC
    8259 JSON text, whose only failures are the interpreter's limits: a
    nesting deeper than the recursion budget raises [RecursionError], an
    [int] longer than [sys.get_int_max_str_digits()] raises [ValueError],
    and both go through [loads].  A decoded value that is not a dict fails
    with [InvalidEnvelopeShape], and a decoded dict is handed to [load]. *)
Theorem Message_loads_spec : forall l s,
  (Message.loads l s = Err MalformedJSON <-> Json.loads l s = Json.Raised Json.JSONDecodeError)
  /\ (Json.rfc8259_valid s = true -> Json.loads l s <> Json.Raised Json.JSONDecodeError)
  /\ (Json.loads l s = Json.Raised Json.RecursionError -> Message.loads l s = Err RecursionError)
  /\ (Json.loads l s = Json.Raised Json.ValueError -> Message.loads l s = Err ValueError)
  /\ (forall v, Json.loads l s = Json.Decoded v -> Payload.is_dict v = false ->
        Message.loads l s = Err InvalidEnvelopeShape)
  /\ (forall d, Json.loads l s = Json.Decoded (PDict d) -> Message.loads l s = Message.load (PDict d)).
Proof.
  intros l s. unfold Message.loads. split; [|split; [|split; [|split; [|split]]]].
  - destruct (Json.loads l s) as [v|[| |]] eqn:E; split; intros H;
      try reflexivity; try discriminate H.
    exfalso. destruct v; try discriminate H. unfold Message.load, Message.init, bind in H.
    unfold GQLMsgType_of in H. destruct (find _ members); [|discriminate H].
    unfold Payload.init in H. destruct (negb _ && negb _); discriminate H.
  - unfold Json.rfc8259_valid.
    destruct (Json.decode (fun _ => None) 0 (List.length s) s) as [v|e] eqn:E;
      [|intros H; discriminate H].
    intros _. unfold Json.loads.
    destruct (decode_limits Json.py_parse_constant (Json.max_str_digits l) _
                (Json.recursion_budget l) _ _ E) as [E'|[E'|E']];
      rewrite E'; discriminate.
  - intros ->. reflexivity.
  - intros ->. reflexivity.
  - intros v -> Hv. destruct v; try reflexivity. discriminate Hv.
  - intros d ->. reflexivity.
Qed.

(** Python's [json.loads] accepts [NaN], which is not JSON, and the message
    layer reports a shape error, not [MalformedJSON]; and JSON texts exist
    that are not handed to [load]: 100000 nested arrays raise
    [RecursionError], an [int] of 5000 digits raises [ValueError]. *)
Lemma Message_loads_spec_counterexample :
  Json.rfc8259_valid (jtxt "NaN") = false
  /\ Json.loads Examples.default_limits (jtxt "NaN") = Json.Decoded (PFloat S754_nan)
  /\ Message.loads Examples.default_limits (jtxt "NaN") = Err InvalidEnvelopeShape
  /\ Json.rfc8259_valid (Examples.nested_arrays (Nat.pow 10 5)) = true
  /\ Message.loads Examples.default_limits (Examples.nested_arrays (Nat.pow 10 5)) = Err RecursionError
  /\ Json.rfc8259_valid (Examples.long_int 5000) = true
  /\ Message.loads Examples.default_limits (Examples.long_int 5000) = Err ValueError.
Proof. vm_compute. repeat split. Qed.

(** The spec's example text for [loads] and its message. *)
Lemma Message_loads_spec_witness :
  Json.rfc8259_valid (jtxt "{'type':'ping'}") = true
  /\ Json.loads Examples.default_limits (jtxt "{'type':'ping'}") <> Json.Raised Json.JSONDecodeError
  /\ Message.loads Examples.default_limits (jtxt "{'type':'ping'}")
     = Message.load (PDict [(txt "type", PStr (txt "ping"))]).
Proof.
  split; [vm_compute; reflexivity|]. split.
  - apply (proj1 (proj2 (Message_loads_spec _ _))). vm_compute. reflexivity.
  - apply (proj2 (proj2 (proj2 (proj2 (proj2 (Message_loads_spec _ _)))))). vm_compute. reflexivity.
Defined.

(** C6 (as the code has it): on a text that decodes to a dict, [loads]
    returns exactly what [load] returns on the decoded dict; such a message
    is equal to itself under [__eq__] unless its id is [NaN], which
    Python's decoder accepts and which is not equal to itself. *)
Theorem Message_loads_load : forall l s d,
  Json.loads l s = Json.Decoded (PDict d) ->
  Message.loads l s = Message.load (PDict d)
  /\ (forall m, Message.load (PDict d) = Ok m ->
        (Message.eq m m = true <-> is_nan_object (Message._id m) = false)).
Proof.
  intros l s d H. split; [unfold Message.loads; rewrite H; reflexivity|].
  apply loads_wf in H. inversion H as [| | | | | | ? Hnd Hall]; subst.
  intros m Hm. unfold Message.load, Message.init, bind in Hm.
  destruct (GQLMsgType_of _) as [t|] eqn:Et; [|discriminate].
  destruct (Payload.init (dict_get d (txt "payload"))) as [p|] eqn:Ep; [|discriminate].
  injection Hm as <-. unfold Message.eq, Payload.eq. cbn [Message._type Message._id Message._payload].
  rewrite GQLMsgType_eqb_refl, (py_eq_refl _ (dict_get_wf d _ Hall)).
  assert (Hp : Inv.wf (PDict (Payload._payload p))).
  { pose proof (dict_get_wf d (txt "payload") Hall) as Hw.
    unfold Payload.init in Ep.
    destruct (dict_get d (txt "payload")) as [| | | | | | e] eqn:Eg; try discriminate;
      injection Ep as <-; simpl; [repeat constructor|].
    destruct e as [|kv e]; [repeat constructor | exact Hw]. }
  rewrite (py_eq_refl _ Hp). cbn [Message._id is_nan_object].
  destruct (is_nan_object (dict_get d (txt "id"))); simpl; split; congruence.
Qed.

(** A message whose id is [NaN]: [loads] and [load] give the same message,
    which is not equal to itself, so the two results do not compare equal. *)
Lemma Message_loads_load_nan_id :
  Json.loads Examples.default_limits (jtxt "{'type':'ping','id':NaN}")
    = Json.Decoded (PDict [(txt "type", PStr (txt "ping")); (txt "id", PFloat S754_nan)])
  /\ Message.loads Examples.default_limits (jtxt "{'type':'ping','id':NaN}") = Ok (Message.mk PING (PFloat S754_nan) (Payload.mk []))
  /\ Message.load (PDict [(txt "type", PStr (txt "ping")); (txt "id", PFloat S754_nan)])
       = Ok (Message.mk PING (PFloat S754_nan) (Payload.mk []))
  /\ Message.eq (Message.mk PING (PFloat S754_nan) (Payload.mk []))
       (Message.mk PING (PFloat S754_nan) (Payload.mk [])) = false.
Proof. vm_compute. repeat split. Qed.

(** The spec's example: the [subscribe] text and its decoded dict give the
    same message. *)
Lemma Message_loads_load_witness :
  Message.loads Examples.default_limits (jtxt "{'type':'subscribe','id':'1','payload':{'query':'{a}'}}")
  = Message.load (PDict [(txt "type", PStr (txt "subscribe")); (txt "id", PStr (txt "1"));
                         (txt "payload", PDict [(txt "query", PStr (txt "{a}"))])]).
Proof.
  apply (Message_loads_load Examples.default_limits (jtxt "{'type':'subscribe','id':'1','payload':{'query':'{a}'}}")).
  vm_compute. reflexivity.
Defined.

(* ------------------------------------------------------------------ *)
(** ** Witnesses of the payload properties *)

(** The spec's example: [Payload({'a': 1}).get('a') == 1] and
    [.get('missing')] is [None]. *)
Lemma Payload_read_access_witness :
  Payload.init (PDict [(txt "a", PInt 1)]) = Ok (Payload.mk [(txt "a", PInt 1)])
  /\ Payload.get (Payload.mk [(txt "a", PInt 1)]) (txt "a") = PInt 1
  /\ Payload.get (Payload.mk [(txt "a", PInt 1)]) (txt "missing") = PNone.
Proof.
  split; [reflexivity|].
  destruct (Payload_read_access [(txt "a", PInt 1)] (Payload.mk [(txt "a", PInt 1)]) eq_refl)
    as [H1 [H2 _]].
  split; [apply H1; reflexivity | apply H2; vm_compute; intros [H|[]]; discriminate H].
Defined.

(** [Payload({'a': 1})['b']] raises [KeyError]. *)
Lemma Payload_getitem_missing_witness :
  Payload.getitem (Payload.mk [(txt "a", PInt 1)]) (txt "b") = Err KeyError.
Proof.
  apply (Payload_getitem_missing (Payload.mk [(txt "a", PInt 1)]) (txt "b")).
  vm_compute. intros [H|[]]. discriminate H.
Defined.

(* ================================================================== *)
(** * Further properties of the module *)

Lemma str_eqb_sym : forall a b, str_eqb a b = str_eqb b a.
Proof.
  intros a b. apply Bool.eq_iff_eq_true. rewrite !str_eqb_eq. split; intros; congruence.
Qed.

Lemma GQLMsgType_of_Ok : forall v t, GQLMsgType_of v = Ok t <-> v = PStr (value t).
Proof.
  intros v t. split.
  - intros H. unfold GQLMsgType_of in H.
    destruct (find _ members) as [m|] eqn:E; [|discriminate].
    injection H as <-. apply find_some_spec in E as [E _].
    destruct v; simpl in E; try discriminate E.
    apply str_eqb_eq in E. rewrite E. reflexivity.
  - intros ->. destruct t; reflexivity.
Qed.

Lemma GQLMsgType_of_Err : forall v e, GQLMsgType_of v = Err e -> e = InvalidMessageKind.
Proof.
  intros v e H. unfold GQLMsgType_of in H. destruct (find _ members); congruence.
Qed.

Lemma Payload_init_Ok : forall v p,
  Payload.init v = Ok p <->
  (v = PNone /\ p = Payload.mk []) \/ (v = PDict (Payload._payload p)).
Proof.
  intros v [d]. simpl. split.
  - intros H. destruct v as [| | | | | | e]; try discriminate H.
    + injection H as <-. left. split; reflexivity.
    + right. rewrite Payload_init_dict in H. congruence.
  - intros [[-> H] | ->]; [rewrite H; reflexivity | apply Payload_init_dict].
Qed.

Lemma Payload_init_Err : forall v e, Payload.init v = Err e -> e = InvalidPayloadShape.
Proof.
  intros v e H. unfold Payload.init in H. destruct (negb _ && negb _); congruence.
Qed.

Lemma SFeqb_sym : forall f g, SFeqb f g = SFeqb g f.
Proof.
  intros [s1|s1| |s1 m1 e1] [s2|s2| |s2 m2 e2]; unfold SFeqb, SFcompare;
    repeat match goal with bb : bool |- _ => destruct bb end; try reflexivity;
    rewrite (Z.compare_antisym e1 e2); destruct (e1 ?= e2)%Z; simpl; try reflexivity;
    change (Pos.compare_cont Eq m1 m2) with (Pos.compare m1 m2);
    change (Pos.compare_cont Eq m2 m1) with (Pos.compare m2 m1);
    rewrite (Pos.compare_antisym m1 m2); destruct (Pos.compare m1 m2); reflexivity.
Qed.

Lemma num_eq_sym : forall x y, num_eq x y = num_eq y x.
Proof.
  intros [x|f] [y|g]; simpl; try reflexivity; [apply Z.eqb_sym | apply SFeqb_sym].
Qed.

Lemma item_eq_sym_of : forall v w, py_eq v w = py_eq w v -> item_eq v w = item_eq w v.
Proof. intros v w H. unfold item_eq. rewrite H, andb_comm. reflexivity. Qed.

Lemma py_eq_sym : forall a, Inv.wf a -> forall b, Inv.wf b -> py_eq a b = py_eq b a.
Proof.
  induction a as [| b1 | z | f | s | xs IH | d IH] using pyval_ind'; intros Hwa b Hwb.
  1-5: destruct b as [| b2 | z2 | f2 | s2 | ys | e]; simpl; try reflexivity;
       repeat match goal with bb : bool |- _ => destruct bb end;
       try reflexivity; try apply Z.eqb_sym; try apply str_eqb_sym;
       apply (num_eq_sym (NFloat _) (NFloat _)).
  - destruct b as [| b2 | z2 | f2 | s2 | ys | e]; try reflexivity.
    inversion Hwa as [| | | | | ? Hxs |]; subst. inversion Hwb as [| | | | | ? Hys |]; subst.
    clear Hwa Hwb. simpl. revert ys Hys. induction xs as [|x xs IHxs]; intros [|y ys] Hys; try reflexivity.
    inversion IH as [|? ? Hx IH']; subst. inversion Hxs as [|? ? Hwx Hxs']; subst.
    inversion Hys as [|? ? Hwy Hys']; subst.
    simpl. rewrite (IHxs IH' Hxs' ys Hys').
    rewrite (Hx Hwx y Hwy), (andb_comm (is_nan_object x)). reflexivity.
  - destruct b as [| b2 | z2 | f2 | s2 | ys | e]; try reflexivity.
    inversion Hwa as [| | | | | | ? Hnd Hd]; subst. inversion Hwb as [| | | | | | ? Hne He]; subst.
    apply Bool.eq_iff_eq_true. rewrite !py_eq_dict_pointwise by assumption.
    assert (Hsym : forall k v w, dict_lookup k d = Some v -> dict_lookup k e = Some w ->
                   item_eq v w = item_eq w v).
    { intros k v w Ev Ew. apply dict_lookup_In in Ev, Ew.
      rewrite Forall_forall in IH, Hd, He.
      apply item_eq_sym_of. exact (IH _ Ev (Hd _ Ev) w (He _ Ew)). }
    split; intros H k; specialize (H k); specialize (Hsym k);
      destruct (dict_lookup k d) as [v|], (dict_lookup k e) as [w|]; try exact H;
      [rewrite <- Hsym | rewrite Hsym]; auto.
Qed.

Lemma wf_payload_of_load : forall d m,
  Forall (fun kv => Inv.wf (snd kv)) d -> Message.load (PDict d) = Ok m ->
  Inv.wf (Message._id m) /\ Inv.wf (PDict (Payload._payload (Message._payload m))).
Proof.
  intros d m Hd Hm. unfold Message.load, Message.init, bind in Hm.
  destruct (GQLMsgType_of _) as [t|]; [|discriminate].
  destruct (Payload.init (dict_get d (txt "payload"))) as [p|] eqn:Ep; [|discriminate].
  injection Hm as <-. simpl. split; [apply dict_get_wf; exact Hd|].
  apply Payload_init_Ok in Ep as [[_ ->]|Ep]; [repeat constructor|].
  rewrite <- Ep. apply dict_get_wf. exact Hd.
Qed.

Lemma skip_ws_all : forall s, forallb Json.is_ws s = true -> Json.skip_ws s = [].
Proof.
  induction s as [|c s IH]; simpl; [reflexivity|].
  intros H. apply andb_true_iff in H as [-> H]. exact (IH H).
Qed.

(* ------------------------------------------------------------------ *)
(** ** Loading a decoded envelope *)

(** [load] on a dict succeeds exactly when its ["type"] entry is one of the
    eight kind strings and its ["payload"] entry is missing, [None] or a
    dict; the message then has that kind, the ["id"] entry as it is (any
    value, [None] when missing; it is never checked) and that dict as its
    payload mapping, the empty mapping for a missing or [None] payload. *)
Theorem Message_load_Ok : forall d m,
  Message.load (PDict d) = Ok m <->
  dict_get d (txt "type") = PStr (value (Message._type m))
  /\ Message._id m = dict_get d (txt "id")
  /\ ((dict_get d (txt "payload") = PNone /\ Payload._payload (Message._payload m) = [])
      \/ dict_get d (txt "payload") = PDict (Payload._payload (Message._payload m))).
Proof.
  intros d [t i [p]]. simpl. unfold Message.load, Message.init, bind. split.
  - destruct (GQLMsgType_of (dict_get d (txt "type"))) as [t'|] eqn:Et; [|discriminate].
    destruct (Payload.init (dict_get d (txt "payload"))) as [p'|] eqn:Ep; [|discriminate].
    intros H. injection H as -> -> ->.
    apply GQLMsgType_of_Ok in Et. apply Payload_init_Ok in Ep.
    split; [exact Et | split; [reflexivity|]].
    destruct Ep as [[H1 H2]|H]; [left; split; [exact H1 | injection H2 as H2; exact H2] | right; exact H].
  - intros [Ht [-> Hp]]. apply GQLMsgType_of_Ok in Ht. rewrite Ht.
    replace (Payload.init (dict_get d (txt "payload"))) with (Ok (Payload.mk p)); [reflexivity|].
    symmetry. apply Payload_init_Ok.
    destruct Hp as [[H1 H2]|H]; [left; split; [exact H1 | simpl in H2; rewrite H2; reflexivity] | right; exact H].
Qed.

(** A dict envelope whose [type] and [payload] are both acceptable, with
    an id that is a list: [load] takes it as it is. *)
Lemma Message_load_Ok_witness :
  Message.load (PDict [(txt "type", PStr (txt "next")); (txt "id", PList [PInt 7]);
                       (txt "payload", PDict [(txt "data", PNone)])])
  = Ok (Message.mk NEXT (PList [PInt 7]) (Payload.mk [(txt "data", PNone)])).
Proof.
  apply (proj2 (Message_load_Ok _ _)). simpl.
  split; [reflexivity | split; [reflexivity | right; reflexivity]].
Defined.

(** [load] checks the kind before the payload: a ["type"] entry that is not
    one of the eight kind strings (missing, [None], a number, a list, any
    other string) fails with [InvalidMessageKind] whatever the payload; with
    an acceptable kind, a ["payload"] entry that is neither missing, [None]
    nor a dict fails with [InvalidPayloadShape]; no other error is raised. *)
Theorem Message_load_errors : forall d,
  ((forall t, dict_get d (txt "type") <> PStr (value t)) ->
     Message.load (PDict d) = Err InvalidMessageKind)
  /\ (forall t, dict_get d (txt "type") = PStr (value t) ->
        dict_get d (txt "payload") <> PNone ->
        (forall e, dict_get d (txt "payload") <> PDict e) ->
        Message.load (PDict d) = Err InvalidPayloadShape)
  /\ (forall e, Message.load (PDict d) = Err e -> e = InvalidMessageKind \/ e = InvalidPayloadShape).
Proof.
  intros d. unfold Message.load, Message.init, bind. split; [|split].
  - intros Ht. destruct (GQLMsgType_of (dict_get d (txt "type"))) as [t|e] eqn:Et.
    + apply GQLMsgType_of_Ok in Et. exfalso. exact (Ht t Et).
    + apply GQLMsgType_of_Err in Et. subst. reflexivity.
  - intros t Ht Hn Hd. apply GQLMsgType_of_Ok in Ht. rewrite Ht.
    destruct (Payload.init (dict_get d (txt "payload"))) as [p|e] eqn:Ep.
    + apply Payload_init_Ok in Ep as [[H _]|H]; exfalso; [exact (Hn H) | exact (Hd _ H)].
    + apply Payload_init_Err in Ep. subst. reflexivity.
  - intros e. destruct (GQLMsgType_of (dict_get d (txt "type"))) as [t|e'] eqn:Et.
    + destruct (Payload.init (dict_get d (txt "payload"))) as [p|e'] eqn:Ep; [discriminate|].
      intros H. injection H as <-. right. exact (Payload_init_Err _ _ Ep).
    + intros H. injection H as <-. left. exact (GQLMsgType_of_Err _ _ Et).
Qed.

(** A numeric ["type"] with a list payload fails on the kind; the kind
    string ["ping"] with a list payload fails on the payload. *)
Lemma Message_load_errors_witness :
  Message.load (PDict [(txt "type", PInt 1); (txt "payload", PList [])]) = Err InvalidMessageKind
  /\ Message.load (PDict [(txt "type", PStr (txt "ping")); (txt "payload", PList [])])
     = Err InvalidPayloadShape.
Proof.
  split.
  - apply (proj1 (Message_load_errors _)). intros t. simpl. discriminate.
  - apply (proj1 (proj2 (Message_load_errors _)) PING); simpl; [reflexivity | discriminate |].
    intros e. discriminate.
Defined.

(* ------------------------------------------------------------------ *)
(** ** Symmetry of equality *)

(** [==] between two messages whose ids and payload values are well formed
    (as every decoded value is: dicts with unique keys) is symmetric, and
    so is [==] between their payloads. *)
Theorem Message_eq_sym : forall a b,
  Inv.wf (Message._id a) -> Inv.wf (Message._id b) ->
  Inv.wf (PDict (Payload._payload (Message._payload a))) ->
  Inv.wf (PDict (Payload._payload (Message._payload b))) ->
  Payload.eq (Message._payload a) (Message._payload b)
    = Payload.eq (Message._payload b) (Message._payload a)
  /\ Message.eq a b = Message.eq b a.
Proof.
  intros [ta ia [pa]] [tb ib [pb]] Hia Hib Hpa Hpb. simpl in *.
  unfold Message.eq, Payload.eq. cbn [Message._type Message._id Message._payload Payload._payload].
  rewrite (py_eq_sym _ Hia _ Hib), (py_eq_sym _ Hpa _ Hpb).
  split; [reflexivity|]. destruct ta, tb; reflexivity.
Qed.

(** An int id against an equal float id, and payloads in two key orders. *)
Lemma Message_eq_sym_witness :
  Message.eq (Message.mk PING (PInt 1) (Payload.mk [(txt "a", PInt 1); (txt "b", PNone)]))
             (Message.mk PING (PFloat (S754_finite false 1 0)) (Payload.mk [(txt "b", PNone); (txt "a", PInt 1)]))
  = Message.eq (Message.mk PING (PFloat (S754_finite false 1 0)) (Payload.mk [(txt "b", PNone); (txt "a", PInt 1)]))
               (Message.mk PING (PInt 1) (Payload.mk [(txt "a", PInt 1); (txt "b", PNone)])).
Proof.
  refine (proj2 (Message_eq_sym
    (Message.mk PING (PInt 1) (Payload.mk [(txt "a", PInt 1); (txt "b", PNone)]))
    (Message.mk PING (PFloat (S754_finite false 1 0)) (Payload.mk [(txt "b", PNone); (txt "a", PInt 1)]))
    _ _ _ _)); simpl; try constructor;
    [ vm_compute; constructor; [intros [H|[]]; discriminate H | constructor; [intros [] | constructor]]
    | repeat constructor
    | vm_compute; constructor; [intros [H|[]]; discriminate H | constructor; [intros [] | constructor]]
    | repeat constructor ].
Defined.

(* ------------------------------------------------------------------ *)
(** ** Messages decoded from text *)

(** The payload of a message that [loads] returns is a mapping with unique
    keys that is equal to itself, even when it holds [NaN] values: the
    dict comparison tests identity before [==]. *)
Theorem Message_loads_payload_self_eq : forall l s m,
  Message.loads l s = Ok m ->
  NoDup (map fst (Payload._payload (Message._payload m)))
  /\ Payload.eq (Message._payload m) (Message._payload m) = true.
Proof.
  intros l s m H. unfold Message.loads in H.
  destruct (Json.loads l s) as [v|[| |]] eqn:E; try discriminate H.
  apply loads_wf in E. destruct v as [| | | | | | d]; try discriminate H.
  inversion E as [| | | | | | ? Hnd Hall]; subst.
  destruct (wf_payload_of_load d m Hall H) as [_ Hp].
  inversion Hp as [| | | | | | ? Hnd' _]; subst.
  split; [exact Hnd'|]. unfold Payload.eq. rewrite (py_eq_refl _ Hp). reflexivity.
Qed.

(** A payload holding [NaN], as Python's decoder accepts it. *)
Lemma Message_loads_payload_self_eq_witness :
  Message.loads Examples.default_limits (jtxt "{'type':'ping','payload':{'a':NaN}}")
    = Ok (Message.mk PING PNone (Payload.mk [(txt "a", PFloat S754_nan)]))
  /\ Payload.eq (Payload.mk [(txt "a", PFloat S754_nan)]) (Payload.mk [(txt "a", PFloat S754_nan)]) = true.
Proof.
  assert (H : Message.loads Examples.default_limits (jtxt "{'type':'ping','payload':{'a':NaN}}")
              = Ok (Message.mk PING PNone (Payload.mk [(txt "a", PFloat S754_nan)])))
    by (vm_compute; reflexivity).
  split; [exact H|].
  exact (proj2 (Message_loads_payload_self_eq _ _ _ H)).
Defined.

(** [loads] fails with [MalformedJSON] on an empty text, on a text of
    whitespace only, and on a text that starts with a byte order mark. *)
Theorem Message_loads_blank : forall l s,
  (forallb Json.is_ws s = true -> Message.loads l s = Err MalformedJSON)
  /\ Message.loads l (Json.BOM :: s) = Err MalformedJSON.
Proof.
  intros l s. unfold Message.loads, Json.loads, Json.decode. split; [|reflexivity].
  intros H. destruct s as [|c s']; [reflexivity|].
  simpl in H. apply andb_true_iff in H as [Hc Hs].
  replace (N.eqb c Json.BOM) with false
    by (unfold Json.is_ws in Hc; rewrite !orb_true_iff, !N.eqb_eq in Hc;
        symmetry; apply N.eqb_neq; unfold Json.BOM; lia).
  rewrite (skip_ws_all (c :: s')) by (simpl; rewrite Hc, Hs; reflexivity).
  replace (3 * List.length (c :: s') + 3)%nat with (S (3 * List.length (c :: s') + 2)) by lia.
  reflexivity.
Qed.

(** Spaces, a tab and a newline. *)
Lemma Message_loads_blank_witness :
  Message.loads Examples.default_limits [32; 9; 10; 32]%N = Err MalformedJSON.
Proof. apply (proj1 (Message_loads_blank _ _)). reflexivity. Defined.

